(** * Passport photo sheet maker: the [/process] handler of [app.py]

    A shallow embedding of the handler's page layout loop (step 6 of
    [process]), of its tile preparation (steps 4 and 5), and of the error
    path taken when the background-removal service answers with a status
    other than 200.  Python integers are unbounded, hence [Z]. *)

From Stdlib Require Import String ZArith List Lia Bool.
Import ListNotations.
Local Open Scope Z_scope.

(** ** Layout settings *)

(** The local variables set under "Layout settings" in [process]; the
    names are those of the source. *)
Record Layout := mkLayout {
  passport_width : Z;
  passport_height : Z;
  border : Z;
  spacing : Z;
  margin_x : Z;
  margin_y : Z;
  horizontal_gap : Z;
  a4_w : Z;
  a4_h : Z
}.

(** The values [process] assigns. *)
Definition settings : Layout :=
  {| passport_width := 384; passport_height := 472; border := 2;
     spacing := 25; margin_x := 10; margin_y := 15; horizontal_gap := 20;
     a4_w := 2480; a4_h := 3508 |}.

(** [paste_w = passport_width + 2 * border] and likewise [paste_h]. *)
Definition paste_w (L : Layout) : Z := passport_width L + 2 * border L.
Definition paste_h (L : Layout) : Z := passport_height L + 2 * border L.

(** ** The layout loop *)

(** The variables the loop updates.  The page [a4] is kept as the list of
    the corners at which [a4.paste(passport_img, (x, y))] was called, in
    call order: every paste puts the same tile. *)
Record Cursor := mkCursor {
  x : Z;
  y : Z;
  placed : Z;
  a4 : list (Z * Z)
}.

(** How one run of the loop body ends: by falling through to the next
    item of the range, or by [break]. *)
Inductive Flow : Type :=
| Next (c : Cursor)
| Break (c : Cursor).

(** The first [if] of the body: start a new row. *)
Definition wrap (L : Layout) (c : Cursor) : Cursor :=
  if x c + paste_w L >? a4_w L
  then {| x := margin_x L; y := y c + (paste_h L + spacing L);
          placed := placed c; a4 := a4 c |}
  else c.

(** The body of [for _ in range(copies)]. *)
Definition body (L : Layout) (c : Cursor) : Flow :=
  let c1 := wrap L c in
  if y c1 + paste_h L >? a4_h L then Break c1
  else Next {| x := x c1 + (paste_w L + horizontal_gap L);
               y := y c1;
               placed := placed c1 + 1;
               a4 := a4 c1 ++ [(x c1, y c1)] |}.

(** Python's [range(n)]: [0, 1, ..., n-1], empty when [n <= 0]. *)
Definition range (n : Z) : list Z :=
  map Z.of_nat (seq 0 (Z.to_nat n)).

(** A [for] loop over a list whose body may [break]; the loop variable is
    not used by the body. *)
Fixpoint for_each (L : Layout) (items : list Z) (c : Cursor) : Cursor :=
  match items with
  | [] => c
  | _ :: rest =>
      match body L c with
      | Next c' => for_each L rest c'
      | Break c' => c'
      end
  end.

(** The cursor before the loop: [x, y = margin_x, margin_y], [placed = 0]
    and a blank page. *)
Definition start (L : Layout) : Cursor :=
  {| x := margin_x L; y := margin_y L; placed := 0; a4 := [] |}.

(** Step 6 of [process]: the page and the counter after the loop. *)
Definition compose (L : Layout) (copies : Z) : Cursor :=
  for_each L (range copies) (start L).

(** ** Vocabulary of the statements *)

(** All layout settings are non-negative integers. *)
Definition nonneg (L : Layout) : Prop :=
  0 <= passport_width L /\ 0 <= passport_height L /\ 0 <= border L /\
  0 <= spacing L /\ 0 <= margin_x L /\ 0 <= margin_y L /\
  0 <= horizontal_gap L /\ 0 <= a4_w L /\ 0 <= a4_h L.

(** At least one tile fits on the page. *)
Definition fits (L : Layout) : Prop :=
  margin_x L + paste_w L <= a4_w L /\ margin_y L + paste_h L <= a4_h L.

(** The bounding box of a tile pasted at [p] lies within the page. *)
Definition within_page (L : Layout) (p : Z * Z) : Prop :=
  0 <= fst p /\ fst p + paste_w L <= a4_w L /\
  0 <= snd p /\ snd p + paste_h L <= a4_h L.

(** Two bounding boxes share a pixel. *)
Definition overlap (L : Layout) (p q : Z * Z) : Prop :=
  exists u v : Z,
    fst p <= u < fst p + paste_w L /\ snd p <= v < snd p + paste_h L /\
    fst q <= u < fst q + paste_w L /\ snd q <= v < snd q + paste_h L.

(** [p] and [q] are far enough apart: in one row with [q] at least a
    footprint and a gap to the right, or [q] at least a footprint and a
    spacing further down. *)
Definition separated (L : Layout) (p q : Z * Z) : Prop :=
  (snd q = snd p /\ fst p + (paste_w L + horizontal_gap L) <= fst q) \/
  snd p + (paste_h L + spacing L) <= snd q.

(** Row-major order on corners: further down, or in the same row and
    further right. *)
Definition row_major_lt (p q : Z * Z) : Prop :=
  snd p < snd q \/ (snd p = snd q /\ fst p < fst q).

(** The number of tiles one row takes and the number of rows the page
    takes, as closed forms. *)
Definition per_row (L : Layout) : Z :=
  (a4_w L - margin_x L + horizontal_gap L) / (paste_w L + horizontal_gap L).

Definition rows (L : Layout) : Z :=
  (a4_h L - margin_y L + spacing L) / (paste_h L + spacing L).

(** A capacity is a number, or there is none when the cursor never leaves
    the page. *)
Inductive Bound : Type :=
| Finite (c : Z)
| Unbounded.

Definition capacity (L : Layout) : Bound :=
  if (paste_w L + horizontal_gap L =? 0) || (paste_h L + spacing L =? 0)
  then Unbounded
  else Finite (per_row L * rows L).

Definition min_bound (n : Z) (b : Bound) : Z :=
  match b with
  | Finite c => Z.min n c
  | Unbounded => n
  end.

(** [b] is the largest count the loop reaches over all requests. *)
Definition is_capacity (L : Layout) (b : Bound) : Prop :=
  match b with
  | Finite c =>
      (forall n, placed (compose L n) <= c) /\
      (exists n, placed (compose L n) = c)
  | Unbounded => forall c, exists n, c < placed (compose L n)
  end.

(** The corners at which the loop pastes when it is entered with [n]
    items left and the cursor at [(cx, cy)]: the loop body read as a
    function of the two coordinates alone. *)
Fixpoint places (L : Layout) (n : nat) (cx cy : Z) : list (Z * Z) :=
  match n with
  | O => []
  | S n' =>
      let x1 := if cx + paste_w L >? a4_w L then margin_x L else cx in
      let y1 := if cx + paste_w L >? a4_w L
                then cy + (paste_h L + spacing L) else cy in
      if y1 + paste_h L >? a4_h L then []
      else (x1, y1) :: places L n' (x1 + (paste_w L + horizontal_gap L)) y1
  end.

(** [R] relates every element of a list to its successor. *)
Definition consecutive {A : Type} (R : A -> A -> Prop) (l : list A) : Prop :=
  forall (i : nat) (p q : A),
    nth_error l i = Some p -> nth_error l (S i) = Some q -> R p q.

(** A page narrower than its tile, with room for several rows. *)
Definition narrow_page : Layout :=
  {| passport_width := 200; passport_height := 100; border := 0;
     spacing := 0; margin_x := 0; margin_y := 0; horizontal_gap := 0;
     a4_w := 100; a4_h := 1000 |}.

(** ** Images *)

(** An image as the handler sees one: its [mode], its [size] as
    [(width, height)], and the bands of the pixel at each coordinate, as
    [getpixel] returns them.  The pixels of the image are those at
    [0 <= u < width] and [0 <= v < height]; what [getpixel] gives at any
    other coordinate stands for nothing. *)
Record Image := mkImage {
  mode : string;
  size : Z * Z;
  getpixel : Z -> Z -> list Z
}.

(** The resampling filters a resize takes. *)
Inductive Resample : Type :=
| NEAREST | BOX | BILINEAR | HAMMING | BICUBIC | LANCZOS.

Definition bytes : Type := list Byte.byte.

(** What the imaging library computes and this development takes as
    given: the pixels of a mode conversion, the pixels of a resampling,
    decoding (which may raise) and encoding. *)
Record Imaging := mkImaging {
  convert_pixels : string -> Image -> Z -> Z -> list Z;
  resample_pixels : Resample -> Image -> Z * Z -> Z -> Z -> list Z;
  image_open : bytes -> option Image;
  image_save : string -> Image -> bytes
}.

Definition white : list Z := [255; 255; 255].
Definition black : list Z := [0; 0; 0].

(** [Image.new(mode, size, color)]. *)
Definition image_new (m : string) (sz : Z * Z) (color : list Z) : Image :=
  {| mode := m; size := sz; getpixel := fun _ _ => color |}.

(** The number of bands of a mode. *)
Definition band_count (m : string) : nat :=
  if (m =? "RGBA")%string || (m =? "CMYK")%string ||
     (m =? "RGBX")%string || (m =? "RGBa")%string then 4
  else if (m =? "RGB")%string || (m =? "YCbCr")%string ||
          (m =? "LAB")%string || (m =? "HSV")%string then 3
  else if (m =? "LA")%string || (m =? "PA")%string ||
          (m =? "La")%string then 2
  else 1.

(** [img.split()]: one single-band image for each band. *)
Definition split (img : Image) : list Image :=
  map (fun k => {| mode := "L"; size := size img;
                   getpixel := fun u v => [nth k (getpixel img u v) 0] |})
      (seq 0 (band_count (mode img))).

(** [images[-1]] on a list of images. *)
Definition last_image (images : list Image) : Image :=
  last images (image_new "L" (0, 0) [0]).

(** Division by 255 with rounding, as the library's blend does it on
    8-bit bands. *)
Definition div255 (a : Z) : Z :=
  let tmp := a + 128 in Z.shiftr (Z.shiftr tmp 8 + tmp) 8.

(** One band of a paste through a mask value: [dst] where the mask is 0,
    [src] where it is 255. *)
Definition blend (mask dst src : Z) : Z :=
  div255 (dst * (255 - mask) + src * mask).

(** The colour bands an "RGBA" or "LA" pixel brings to an "RGB" image. *)
Definition colour_of (m : string) (p : list Z) : list Z :=
  if (m =? "LA")%string then [nth 0 p 0; nth 0 p 0; nth 0 p 0]
  else [nth 0 p 0; nth 1 p 0; nth 2 p 0].

(** [background.paste(img, mask=mask)] for an "RGB" background and an
    "RGBA" or "LA" image of the same size. *)
Definition paste_mask (background img mask : Image) : Image :=
  {| mode := mode background;
     size := size background;
     getpixel := fun u v =>
       let a := nth 0 (getpixel mask u v) 0 in
       map (fun ds => blend a (fst ds) (snd ds))
           (combine (getpixel background u v)
                    (colour_of (mode img) (getpixel img u v))) |}.

(** [img.convert(mode)]. *)
Definition convert (P : Imaging) (m : string) (img : Image) : Image :=
  {| mode := m; size := size img; getpixel := convert_pixels P m img |}.

(** [img.resize(size, resample)]. *)
Definition resize (P : Imaging) (img : Image) (sz : Z * Z) (r : Resample)
  : Image :=
  {| mode := mode img; size := sz; getpixel := resample_pixels P r img sz |}.

(** [target.paste(img, (left, top))] without a mask, for images of one
    mode: the pixels of [img] replace those of [target] in the box whose
    upper left corner is [(left, top)].  The library clips the box to the
    target; here the part of the box beyond the target's size falls on
    coordinates that are no pixels of the result. *)
Definition paste_at (target img : Image) (corner : Z * Z) : Image :=
  let (left, top) := corner in
  {| mode := mode target;
     size := size target;
     getpixel := fun u v =>
       if (left <=? u) && (u <? left + fst (size img)) &&
          (top <=? v) && (v <? top + snd (size img))
       then getpixel img (u - left) (v - top)
       else getpixel target u v |}.

(** [ImageOps.expand(image, border=b, fill=color)]: a new image, larger by
    [b] on each side, with [image] pasted at [(b, b)]. *)
Definition expand (img : Image) (b : Z) (color : list Z) : Image :=
  let width := b + fst (size img) + b in
  let height := b + snd (size img) + b in
  paste_at (image_new (mode img) (width, height) color) img (b, b).

(** The transparency branch that [process] runs after each download. *)
Definition flatten (P : Imaging) (img : Image) : Image :=
  if (mode img =? "RGBA")%string || (mode img =? "LA")%string
  then
    let background := image_new "RGB" (size img) white in
    paste_mask background img (last_image (split img))
  else convert P "RGB" img.

(** Step 5 of [process]: resize, then border. *)
Definition resize_and_border (P : Imaging) (L : Layout) (img : Image)
  : Image :=
  let passport_img :=
    resize P img (passport_width L, passport_height L) LANCZOS in
  expand passport_img (border L) black.

(** Steps 4 and 5 together: the tile made from a downloaded image. *)
Definition prepare (P : Imaging) (L : Layout) (img : Image) : Image :=
  resize_and_border P L (flatten P img).

(** ** The answer of the background-removal service *)

(** A parsed JSON document.  An object is the list of its entries, each
    key once. *)
#[warnings="-register-all"] Inductive Json : Type :=
| JNull
| JBool (b : bool)
| JNumber (n : Z)
| JString (s : string)
| JArray (items : list Json)
| JObject (fields : list (string * Json)).

Fixpoint lookup (key : string) (fields : list (string * Json))
  : option Json :=
  match fields with
  | [] => None
  | (k, v) :: rest => if (k =? key)%string then Some v else lookup key rest
  end.

(** Python's truth value of a parsed document. *)
Definition truthy (v : Json) : bool :=
  match v with
  | JNull => false
  | JBool b => b
  | JNumber n => negb (n =? 0)
  | JString s => negb (s =? "")%string
  | JArray items => match items with [] => false | _ => true end
  | JObject fields => match fields with [] => false | _ => true end
  end.

(** The three ways the [try] block ends. *)
Inductive Try (A : Type) : Type :=
| Returned (a : A)
| Raised
| Done.
Arguments Returned {A} a.
Arguments Raised {A}.
Arguments Done {A}.

(** [v.get(key, default)]: only a dict has [get]. *)
Definition py_get (v : Json) (key : string) (default : Json) : option Json :=
  match v with
  | JObject fields =>
      Some (match lookup key fields with Some w => w | None => default end)
  | _ => None
  end.

(** [v[key]] for a string key: a missing key raises, and so does a string
    subscript on anything but a dict. *)
Definition py_item (v : Json) (key : string) : option Json :=
  match v with
  | JObject fields => lookup key fields
  | _ => None
  end.

(** [v[0]]: the first item of a list, the first character of a string; it
    raises on an empty sequence, on a dict (its keys are strings) and on
    everything else. *)
Definition py_first (v : Json) : option Json :=
  match v with
  | JArray (a :: _) => Some a
  | JString (String c _) => Some (JString (String c EmptyString))
  | _ => None
  end.

Record Response := mkResponse {
  status_code : Z;
  json : option Json;   (* [None]: [response.json()] raises *)
  content : bytes
}.

(** What a view returns: a body and a status. *)
Inductive Body : Type :=
| Text (s : string)
| Dict (fields : list (string * Json))
| Pdf (download_name : string) (data : bytes).

Definition Reply : Type := (Body * Z)%type.

(** The body of the [try] in the [status_code != 200] branch. *)
Definition parse_error (response : Response) : Try Reply :=
  match json response with
  | None => Raised
  | Some error_info =>
      match py_get error_info "errors" JNull with
      | None => Raised
      | Some errors =>
          if truthy errors then
            match py_item error_info "errors" with
            | None => Raised
            | Some errors' =>
                match py_first errors' with
                | None => Raised
                | Some first =>
                    match py_get first "code" (JString "unknown_error") with
                    | None => Raised
                    | Some error_code =>
                        Returned (Dict [("error"%string, error_code)], 410)
                    end
                end
            end
          else Done
      end
  end.

(** The whole [if response.status_code != 200:] branch: an exception in
    the [try] is caught and, like a [try] that ends without returning,
    leads to the last [return]. *)
Definition removal_failed (response : Response) : Reply :=
  match parse_error response with
  | Returned r => r
  | Raised | Done =>
      (Dict [("error"%string, JString "bg_removal_failed")], 500)
  end.

(** ** The handler *)

(** The page as an image: a white sheet on which the tile is pasted at
    each corner of the list, in order. *)
Definition render (L : Layout) (tile : Image) (corners : list (Z * Z))
  : Image :=
  fold_left (fun sheet corner => paste_at sheet tile corner) corners
            (image_new "RGB" (a4_w L, a4_h L) white).

(** The calls [process] makes to the outside and that return, in the
    order it makes them. *)
Inductive Call : Type :=
| RemoveBg
| CloudinaryUpload
| CloudinaryUrl
| DownloadEnhanced
| ExportPdf.

Record Upload := mkUpload {
  secure_url : option string;
  public_id : option string
}.

(** What the handler is given: the request, and the answers of the
    services it calls.  [remove_bg] and [cloudinary_upload] give the
    answer of a call that returns. *)
Record Env := mkEnv {
  files_image : option bytes;       (* [request.files["image"]], read *)
  form_copies : option string;      (* [request.form.get("copies")] *)
  py_int : string -> option Z;      (* [int(s)]; [None]: it raises *)
  remove_bg : bytes -> Response;
  cloudinary_upload : bytes -> Upload;
  cloudinary_url : string -> string;  (* the URL built for a public id *)
  http_get : string -> option bytes   (* [None]: [requests.get] raises *)
}.

(** [cloudinary.utils.cloudinary_url(public_id, ...)[0]]: the library
    hands back a public id of [None] as it is, and builds a URL for any
    other. *)
Definition enhanced_url_of (E : Env) (upload_result : Upload)
  : option string :=
  match public_id upload_result with
  | None => None
  | Some id => Some (cloudinary_url E id)
  end.

(** [requests.get(enhanced_url).content]: the call raises for a URL of
    [None], and may raise for any other. *)
Definition download (E : Env) (enhanced_url : option string)
  : option bytes :=
  match enhanced_url with
  | None => None
  | Some url => http_get E url
  end.

(** How a request ends: with a reply, or with an exception that no code
    of the handler catches. *)
Inductive Outcome : Type :=
| Replied (r : Reply)
| Uncaught.

(** [process], with the calls it made. *)
Definition process (P : Imaging) (E : Env) : Outcome * list Call :=
  match files_image E with
  | None => (Replied (Text "No image uploaded", 400), [])
  | Some input_image =>
      let L := settings in
      match (match form_copies E with
             | None => Some 6
             | Some s => py_int E s
             end) with
      | None => (Uncaught, [])
      | Some copies =>
          let response := remove_bg E input_image in
          if negb (status_code response =? 200)
          then (Replied (removal_failed response), [RemoveBg])
          else
            match image_open P (content response) with
            | None => (Uncaught, [RemoveBg])
            | Some img =>
                let processed_img := flatten P img in
                let upload_result :=
                  cloudinary_upload E (image_save P "PNG" processed_img) in
                match secure_url upload_result with
                | None | Some EmptyString =>
                    (Replied (Text "Cloudinary upload failed", 500),
                     [RemoveBg; CloudinaryUpload])
                | Some _ =>
                    let enhanced_url := enhanced_url_of E upload_result in
                    match download E enhanced_url with
                    | None =>
                        (Uncaught,
                         [RemoveBg; CloudinaryUpload; CloudinaryUrl])
                    | Some enhanced_img_data =>
                        let called :=
                          [RemoveBg; CloudinaryUpload; CloudinaryUrl;
                           DownloadEnhanced] in
                        match image_open P enhanced_img_data with
                        | None => (Uncaught, called)
                        | Some img' =>
                            let passport_img := prepare P L img' in
                            let page := compose L copies in
                            (Replied (Pdf "passport-sheet.pdf"
                                        (image_save P "PDF"
                                           (render L passport_img
                                              (a4 page))),
                                      200),
                             called ++ [ExportPdf])
                        end
                    end
                end
            end
      end
  end.

(** The first entry of the answer's error list, when the answer is a JSON
    object whose ["errors"] is a list that starts with an object. *)
Definition first_error (response : Response)
  : option (list (string * Json)) :=
  match json response with
  | Some (JObject fields) =>
      match lookup "errors" fields with
      | Some (JArray (JObject e :: _)) => Some e
      | _ => None
      end
  | _ => None
  end.

(** The code of that first entry, when it has one. *)
Definition first_error_code (response : Response) : option Json :=
  match first_error response with
  | Some e => lookup "code" e
  | None => None
  end.

(** An answer whose first error has a title and no code. *)
Definition titled_error : Response :=
  {| status_code := 400;
     json := Some (JObject [("errors"%string,
               JArray [JObject [("title"%string,
                                 JString "Bad request")]])]);
     content := [] |}.

(** The last band of the pixel at [(u, v)]: the alpha of an "RGBA" or
    "LA" image. *)
Definition alpha_at (img : Image) (u v : Z) : Z :=
  nth (band_count (mode img) - 1) (getpixel img u v) 0.

(** The pixel at [(u, v)] of a tile lies in its content, within the
    border of [b] pixels. *)
Definition inside_border (L : Layout) (u v : Z) : Prop :=
  border L <= u < border L + passport_width L /\
  border L <= v < border L + passport_height L.

(** A stand-in imaging library for worked cases: it decodes nothing and
    turns every pixel grey. *)
Definition grey_imaging : Imaging :=
  {| convert_pixels := fun _ _ _ _ => [128; 128; 128];
     resample_pixels := fun _ _ _ _ _ => [128; 128; 128];
     image_open := fun _ => None;
     image_save := fun _ _ => [] |}.

(** A two-pixel "RGBA" image: a transparent red pixel at [u = 0], opaque
    blue everywhere else. *)
Definition two_pixels : Image :=
  {| mode := "RGBA"; size := (2, 1);
     getpixel := fun u _ =>
       if u =? 0 then [200; 10; 10; 0] else [10; 10; 200; 255] |}.

(** A request with an image and no [copies] field, to which the
    background-removal service answers [r]. *)
Definition answered (r : Response) : Env :=
  {| files_image := Some [];
     form_copies := None;
     py_int := fun _ => None;
     remove_bg := fun _ => r;
     cloudinary_upload := fun _ => mkUpload None None;
     cloudinary_url := fun _ => EmptyString;
     http_get := fun _ => None |}.

(** An answer with a coded first error. *)
Definition coded_error : Response :=
  {| status_code := 402;
     json := Some (JObject [("errors"%string,
               JArray [JObject [("title"%string,
                                 JString "Insufficient credits");
                                ("code"%string,
                                 JString "insufficient_credits")]])]);
     content := [] |}.

(** The corner of cell [k] of the grid the loop fills, counting the cells
    row by row from 0. *)
Definition grid (L : Layout) (k : Z) : Z * Z :=
  (margin_x L + (k mod per_row L) * (paste_w L + horizontal_gap L),
   margin_y L + (k / per_row L) * (paste_h L + spacing L)).

(** The pixel [(u, v)] lies in the bounding box of a tile pasted at [p]. *)
Definition in_box (L : Layout) (p : Z * Z) (u v : Z) : Prop :=
  fst p <= u < fst p + paste_w L /\ snd p <= v < snd p + paste_h L.

(** The pixel [(u, v)] lies in the box that [img] takes when it is pasted
    at [corner]: the test of [paste_at]. *)
Definition covers (img : Image) (corner : Z * Z) (u v : Z) : bool :=
  (fst corner <=? u) && (u <? fst corner + fst (size img)) &&
  (snd corner <=? v) && (v <? snd corner + snd (size img)).

(** The calls of a request that runs to its end. *)
Definition all_calls : list Call :=
  [RemoveBg; CloudinaryUpload; CloudinaryUrl; DownloadEnhanced; ExportPdf].

(** [copies = int(request.form.get("copies", 6))]. *)
Definition copies_of (E : Env) : option Z :=
  match form_copies E with
  | None => Some 6
  | Some s => py_int E s
  end.

(** The truth value of [image_url]. *)
Definition has_url (u : Upload) : bool :=
  match secure_url u with
  | None | Some EmptyString => false
  | Some _ => true
  end.

(** A stand-in imaging library that decodes every download to
    [two_pixels]. *)
Definition decoding : Imaging :=
  {| convert_pixels := fun _ _ _ _ => [128; 128; 128];
     resample_pixels := fun _ _ _ _ _ => [128; 128; 128];
     image_open := fun _ => Some two_pixels;
     image_save := fun _ _ => [] |}.

(** An answer of the background-removal service with status 200. *)
Definition removed : Response :=
  {| status_code := 200; json := None; content := [] |}.

(** A request with a [copies] field that [int] reads as [n], served by an
    upload that answers [up]. *)
Definition served (n : option Z) (up : Upload) : Env :=
  {| files_image := Some [];
     form_copies := Some "8"%string;
     py_int := fun _ => n;
     remove_bg := fun _ => removed;
     cloudinary_upload := fun _ => up;
     cloudinary_url := fun _ => "https://res/e/x"%string;
     http_get := fun _ => Some [] |}.

(** ** Basic facts about the loop *)

Lemma range_nonpos (n : Z) : n <= 0 -> range n = [].
Proof.
  intro H. unfold range.
  replace (Z.to_nat n) with 0%nat by lia. reflexivity.
Qed.

Lemma range_length (n : Z) : length (range n) = Z.to_nat n.
Proof. unfold range. now rewrite length_map, length_seq. Qed.

(** The loop only counts its items, and what it adds to the page and to
    the counter is what [places] lists. *)
Lemma for_each_places (L : Layout) (items : list Z) :
  forall c : Cursor,
    a4 (for_each L items c) =
      a4 c ++ places L (length items) (x c) (y c) /\
    placed (for_each L items c) =
      placed c + Z.of_nat (length (places L (length items) (x c) (y c))).
Proof.
  induction items as [|i rest IH]; intro c; cbn [for_each length places].
  - rewrite app_nil_r. split; [reflexivity | cbn; lia].
  - unfold body, wrap.
    destruct (x c + paste_w L >? a4_w L); cbn [x y a4 placed];
      match goal with
      | |- context [?u + paste_h L >? a4_h L] =>
          destruct (u + paste_h L >? a4_h L)
      end; cbn [x y a4 placed length];
      try (rewrite app_nil_r; split; [reflexivity | lia]);
      match goal with
      | |- context [for_each L rest ?c'] =>
          destruct (IH c') as [Ha Hp]; cbn [x y a4 placed] in Ha, Hp;
          rewrite Ha, Hp, <- app_assoc; cbn [app]; split; [reflexivity | lia]
      end.
Qed.

Lemma compose_a4 (L : Layout) (copies : Z) :
  a4 (compose L copies) =
  places L (Z.to_nat copies) (margin_x L) (margin_y L).
Proof.
  unfold compose.
  destruct (for_each_places L (range copies) (start L)) as [Ha _].
  now rewrite Ha, range_length.
Qed.

Lemma compose_placed (L : Layout) (copies : Z) :
  placed (compose L copies) =
  Z.of_nat (length (places L (Z.to_nat copies) (margin_x L) (margin_y L))).
Proof.
  unfold compose.
  destruct (for_each_places L (range copies) (start L)) as [_ Hp].
  now rewrite Hp, range_length.
Qed.

(** The counter is the number of pastes on the page. *)
Lemma placed_counts_pastes (L : Layout) (copies : Z) :
  placed (compose L copies) = Z.of_nat (length (a4 (compose L copies))).
Proof. now rewrite compose_placed, compose_a4. Qed.

(** ** Where the loop pastes *)

Ltac loop_cases L cx :=
  cbn [places];
  destruct (Z.gtb_spec (cx + paste_w L) (a4_w L)); cbv zeta;
  match goal with
  | |- context [?u + paste_h L >? a4_h L] =>
      destruct (Z.gtb_spec (u + paste_h L) (a4_h L))
  end.

(** Every corner pasted from [(cx, cy)] on is in the row of [cy] and not
    to the left of [cx], or at least one row further down. *)
Lemma places_reach (L : Layout) :
  0 <= paste_w L + horizontal_gap L ->
  0 <= paste_h L + spacing L ->
  forall (n : nat) (cx cy : Z),
    Forall (fun q => (snd q = cy /\ cx <= fst q) \/
                     cy + (paste_h L + spacing L) <= snd q)
           (places L n cx cy).
Proof.
  intros HW HH. induction n as [|n IH]; intros cx cy.
  - constructor.
  - loop_cases L cx; try constructor; cbn [fst snd]; try lia;
      match goal with
      | |- Forall _ (places L n ?u ?v) =>
          eapply Forall_impl; [| apply (IH u v)]; cbn beta; intros q Hq; lia
      end.
Qed.

Lemma places_separated (L : Layout) :
  0 <= paste_w L + horizontal_gap L ->
  0 <= paste_h L + spacing L ->
  forall (n : nat) (cx cy : Z),
    ForallOrdPairs (separated L) (places L n cx cy).
Proof.
  intros HW HH. induction n as [|n IH]; intros cx cy.
  - constructor.
  - loop_cases L cx; try constructor; try apply IH;
      match goal with
      | |- Forall _ (places L n ?u ?v) =>
          eapply Forall_impl; [| apply (places_reach L HW HH n u v)];
          unfold separated; cbn [fst snd]; intros q Hq; lia
      end.
Qed.

(** With room for a tile at the left margin, every paste is on the page. *)
Lemma places_within (L : Layout) :
  nonneg L ->
  margin_x L + paste_w L <= a4_w L ->
  forall (n : nat) (cx cy : Z),
    0 <= cx -> 0 <= cy ->
    Forall (within_page L) (places L n cx cy).
Proof.
  intros HL Hx. unfold nonneg in HL.
  induction n as [|n IH]; intros cx cy Hcx Hcy.
  - constructor.
  - loop_cases L cx.
    + constructor.
    + constructor.
      * unfold within_page, paste_w, paste_h in *; cbn [fst snd]; lia.
      * apply IH; unfold paste_w, paste_h in *; lia.
    + constructor.
    + constructor.
      * unfold within_page, paste_w, paste_h in *; cbn [fst snd]; lia.
      * apply IH; unfold paste_w, paste_h in *; lia.
Qed.

Lemma ForallOrdPairs_nth {A : Type} (R : A -> A -> Prop) (l : list A) :
  ForallOrdPairs R l ->
  forall (i j : nat) (p q : A),
    (i < j)%nat -> nth_error l i = Some p -> nth_error l j = Some q ->
    R p q.
Proof.
  induction 1 as [|a l Ha Hl IH]; intros i j p q Hij Hp Hq.
  - destruct i; discriminate.
  - destruct j as [|j]; [lia|]. cbn in Hq. destruct i as [|i]; cbn in Hp.
    + injection Hp as <-. rewrite Forall_forall in Ha.
      apply Ha. eapply nth_error_In; eassumption.
    + apply (IH i j); [lia | assumption | assumption].
Qed.

Lemma separated_no_overlap (L : Layout) (p q : Z * Z) :
  0 <= horizontal_gap L -> 0 <= spacing L ->
  separated L p q -> ~ overlap L p q.
Proof.
  intros Hg Hs Hsep (u & v & Hu & Hv & Hu' & Hv').
  unfold separated in Hsep. lia.
Qed.

(** ** Counting the pastes *)

Lemma div_le_iff (a b q : Z) : 0 < b -> (q <= a / b <-> q * b <= a).
Proof.
  intro Hb.
  pose proof (Z.div_mod a b ltac:(lia)) as Hdm.
  pose proof (Z.mod_pos_bound a b Hb) as Hm.
  split; intro H; nia.
Qed.

(** Column [j] of a row has room for a tile exactly when [j < per_row]. *)
Lemma column_full (L : Layout) (j : Z) :
  0 < paste_w L + horizontal_gap L ->
  (a4_w L < margin_x L + j * (paste_w L + horizontal_gap L) + paste_w L
   <-> per_row L <= j).
Proof.
  intro HW. unfold per_row.
  pose proof (div_le_iff (a4_w L - margin_x L + horizontal_gap L)
                (paste_w L + horizontal_gap L) (j + 1) HW) as Hiff.
  split; intro H.
  - destruct (Z_lt_le_dec j (per_row L)) as [Hlt|Hge]; [|exact Hge].
    unfold per_row in Hlt. apply proj1 in Hiff.
    specialize (Hiff ltac:(lia)). lia.
  - destruct (Z_lt_le_dec (a4_w L)
                (margin_x L + j * (paste_w L + horizontal_gap L) + paste_w L))
      as [Hlt|Hge]; [exact Hlt|].
    apply proj2 in Hiff. specialize (Hiff ltac:(lia)). lia.
Qed.

(** Row [i] of the page has room for a tile exactly when [i < rows]. *)
Lemma row_full (L : Layout) (i : Z) :
  0 < paste_h L + spacing L ->
  (a4_h L < margin_y L + i * (paste_h L + spacing L) + paste_h L
   <-> rows L <= i).
Proof.
  intro HH. unfold rows.
  pose proof (div_le_iff (a4_h L - margin_y L + spacing L)
                (paste_h L + spacing L) (i + 1) HH) as Hiff.
  split; intro H.
  - destruct (Z_lt_le_dec i (rows L)) as [Hlt|Hge]; [|exact Hge].
    unfold rows in Hlt. apply proj1 in Hiff.
    specialize (Hiff ltac:(lia)). lia.
  - destruct (Z_lt_le_dec (a4_h L)
                (margin_y L + i * (paste_h L + spacing L) + paste_h L))
      as [Hlt|Hge]; [exact Hlt|].
    apply proj2 in Hiff. specialize (Hiff ltac:(lia)). lia.
Qed.

Lemma per_row_pos (L : Layout) :
  0 < paste_w L + horizontal_gap L ->
  margin_x L + paste_w L <= a4_w L -> 1 <= per_row L.
Proof.
  intros HW Hx. apply div_le_iff; [exact HW | lia].
Qed.

Lemma rows_pos (L : Layout) :
  0 < paste_h L + spacing L ->
  margin_y L + paste_h L <= a4_h L -> 1 <= rows L.
Proof.
  intros HH Hy. apply div_le_iff; [exact HH | lia].
Qed.

(** Entered in row [i] after [j] tiles of that row, the loop pastes what
    is left of the grid of [rows] by [per_row] cells, or one tile for each
    item if there are fewer items. *)
Lemma places_count (L : Layout) :
  0 < paste_w L + horizontal_gap L ->
  0 < paste_h L + spacing L ->
  fits L ->
  forall (n : nat) (i j : Z),
    0 <= i < rows L -> 0 <= j <= per_row L ->
    Z.of_nat (length (places L n
                        (margin_x L + j * (paste_w L + horizontal_gap L))
                        (margin_y L + i * (paste_h L + spacing L)))) =
    Z.min (Z.of_nat n) ((rows L - i) * per_row L - j).
Proof.
  intros HW HH [Hx Hy].
  pose proof (per_row_pos L HW Hx) as Hc.
  induction n as [|n IH]; intros i j Hi Hj.
  - cbn [places length]. nia.
  - pose proof (column_full L j HW) as Hcol.
    pose proof (row_full L i HH) as Hrow.
    pose proof (row_full L (i + 1) HH) as Hrow'.
    replace (margin_y L + (i + 1) * (paste_h L + spacing L))
      with (margin_y L + i * (paste_h L + spacing L)
            + (paste_h L + spacing L)) in Hrow' by ring.
    loop_cases L (margin_x L + j * (paste_w L + horizontal_gap L)).
    + (* the row is full and so is the page *)
      assert (i = rows L - 1) as -> by lia.
      assert (j = per_row L) as -> by lia.
      cbn [length]. nia.
    + (* the row is full: first tile of the next row *)
      assert (j = per_row L) as -> by lia.
      cbn [length]. rewrite Nat2Z.inj_succ.
      replace (margin_x L + (paste_w L + horizontal_gap L))
        with (margin_x L + 1 * (paste_w L + horizontal_gap L)) by ring.
      replace (margin_y L + i * (paste_h L + spacing L)
               + (paste_h L + spacing L))
        with (margin_y L + (i + 1) * (paste_h L + spacing L)) by ring.
      rewrite (IH (i + 1) 1) by lia.
      replace ((rows L - (i + 1)) * per_row L)
        with ((rows L - i) * per_row L - per_row L) by ring.
      lia.
    + lia.
    + (* room in the row *)
      cbn [length]. rewrite Nat2Z.inj_succ.
      replace (margin_x L + j * (paste_w L + horizontal_gap L)
               + (paste_w L + horizontal_gap L))
        with (margin_x L + (j + 1) * (paste_w L + horizontal_gap L)) by ring.
      rewrite (IH i (j + 1)) by lia.
      lia.
Qed.

(** Without a step to the right, or without a step down, the cursor stays
    on the page and every item is pasted. *)
Lemma places_count_no_step_down (L : Layout) :
  paste_h L + spacing L = 0 ->
  margin_y L + paste_h L <= a4_h L ->
  forall (n : nat) (cx : Z),
    length (places L n cx (margin_y L)) = n.
Proof.
  intros HH Hy. induction n as [|n IH]; intro cx.
  - reflexivity.
  - loop_cases L cx; try lia; cbn [length]; f_equal.
    + replace (margin_y L + (paste_h L + spacing L))
        with (margin_y L) by lia.
      apply IH.
    + apply IH.
Qed.

Lemma places_count_no_step_right (L : Layout) :
  paste_w L + horizontal_gap L = 0 ->
  fits L ->
  forall n : nat,
    length (places L n (margin_x L) (margin_y L)) = n.
Proof.
  intros HW [Hx Hy]. induction n as [|n IH].
  - reflexivity.
  - loop_cases L (margin_x L); try lia; cbn [length]; f_equal.
    replace (margin_x L + (paste_w L + horizontal_gap L))
      with (margin_x L) by lia.
    exact IH.
Qed.

Lemma placed_finite (L : Layout) (copies : Z) :
  0 < paste_w L + horizontal_gap L ->
  0 < paste_h L + spacing L ->
  fits L ->
  placed (compose L copies) =
  Z.min (Z.max 0 copies) (per_row L * rows L).
Proof.
  intros HW HH Hfit. rewrite compose_placed.
  pose proof (per_row_pos L HW (proj1 Hfit)) as Hc.
  pose proof (rows_pos L HH (proj2 Hfit)) as Hr.
  pose proof (places_count L HW HH Hfit (Z.to_nat copies) 0 0
                ltac:(lia) ltac:(lia)) as Hcount.
  replace (margin_x L + 0 * (paste_w L + horizontal_gap L))
    with (margin_x L) in Hcount by ring.
  replace (margin_y L + 0 * (paste_h L + spacing L))
    with (margin_y L) in Hcount by ring.
  rewrite Hcount.
  replace ((rows L - 0) * per_row L - 0) with (per_row L * rows L) by ring.
  lia.
Qed.

Lemma placed_unbounded (L : Layout) (copies : Z) :
  paste_w L + horizontal_gap L = 0 \/ paste_h L + spacing L = 0 ->
  fits L ->
  placed (compose L copies) = Z.max 0 copies.
Proof.
  intros Hzero Hfit. rewrite compose_placed.
  destruct Hzero as [HW|HH].
  - rewrite (places_count_no_step_right L HW Hfit). lia.
  - rewrite (places_count_no_step_down L HH (proj2 Hfit)). lia.
Qed.

(** ** The page the loop leaves *)

Lemma capacity_finite (L : Layout) :
  0 < paste_w L + horizontal_gap L ->
  0 < paste_h L + spacing L ->
  capacity L = Finite (per_row L * rows L).
Proof.
  intros HW HH. unfold capacity.
  destruct (Z.eqb_spec (paste_w L + horizontal_gap L) 0); [lia|].
  destruct (Z.eqb_spec (paste_h L + spacing L) 0); [lia|].
  reflexivity.
Qed.

Lemma capacity_unbounded (L : Layout) :
  paste_w L + horizontal_gap L = 0 \/ paste_h L + spacing L = 0 ->
  capacity L = Unbounded.
Proof.
  intro Hzero. unfold capacity.
  destruct (Z.eqb_spec (paste_w L + horizontal_gap L) 0); [reflexivity|].
  destruct (Z.eqb_spec (paste_h L + spacing L) 0); [reflexivity|].
  lia.
Qed.

Lemma nonneg_steps (L : Layout) :
  nonneg L ->
  0 <= paste_w L + horizontal_gap L /\ 0 <= paste_h L + spacing L.
Proof. unfold nonneg, paste_w, paste_h. lia. Qed.

(** C1. For every layout with non-negative settings under which one tile
    fits ([margin_x + paste_w <= a4_w] and [margin_y + paste_h <= a4_h]) and
    every [copies >= 0], the counter [placed] ends at the minimum of
    [copies] and the capacity, and that capacity is the largest count the
    loop reaches over all requests: [per_row * rows] tiles, or no bound at
    all when the cursor does not move (a footprint and gap, or a footprint
    and spacing, of zero). *)
Theorem placed_is_min_of_copies_and_capacity (L : Layout) (copies : Z) :
  nonneg L -> fits L -> 0 <= copies ->
  is_capacity L (capacity L) /\
  placed (compose L copies) = min_bound copies (capacity L).
Proof.
  intros HL Hfit Hcopies.
  destruct (nonneg_steps L HL) as [HW HH].
  destruct (Z.eq_dec (paste_w L + horizontal_gap L) 0) as [HW0|HW0];
    [|destruct (Z.eq_dec (paste_h L + spacing L) 0) as [HH0|HH0]].
  - rewrite (capacity_unbounded L (or_introl HW0)). split.
    + intro c. exists (Z.max 0 (c + 1)).
      rewrite (placed_unbounded L _ (or_introl HW0) Hfit). lia.
    + cbn [min_bound].
      rewrite (placed_unbounded L _ (or_introl HW0) Hfit). lia.
  - rewrite (capacity_unbounded L (or_intror HH0)). split.
    + intro c. exists (Z.max 0 (c + 1)).
      rewrite (placed_unbounded L _ (or_intror HH0) Hfit). lia.
    + cbn [min_bound].
      rewrite (placed_unbounded L _ (or_intror HH0) Hfit). lia.
  - assert (0 < paste_w L + horizontal_gap L) as HWp by lia.
    assert (0 < paste_h L + spacing L) as HHp by lia.
    pose proof (per_row_pos L HWp (proj1 Hfit)) as Hc.
    pose proof (rows_pos L HHp (proj2 Hfit)) as Hr.
    rewrite (capacity_finite L HWp HHp). split; [split|].
    + intro n. rewrite (placed_finite L n HWp HHp Hfit). lia.
    + exists (per_row L * rows L).
      rewrite (placed_finite L _ HWp HHp Hfit). nia.
    + cbn [min_bound]. rewrite (placed_finite L copies HWp HHp Hfit). lia.
Qed.

Lemma placed_is_min_of_copies_and_capacity_witness :
  capacity settings = Finite 42 /\
  is_capacity settings (capacity settings) /\
  placed (compose settings 50) = min_bound 50 (capacity settings).
Proof.
  split; [reflexivity|].
  apply (placed_is_min_of_copies_and_capacity settings 50).
  - unfold nonneg; cbn; lia.
  - unfold fits; cbn; lia.
  - lia.
Defined.

(** C2, as stated, fails: on a page narrower than the tile the loop wraps
    to the left margin and pastes there, past the right edge. *)
Lemma paste_beyond_right_edge :
  nonneg narrow_page /\
  a4 (compose narrow_page 1) = [(0, 100)] /\
  ~ Forall (within_page narrow_page) (a4 (compose narrow_page 1)).
Proof.
  split; [unfold nonneg; cbn; lia|].
  split; [reflexivity|].
  intro H. change (a4 (compose narrow_page 1)) with [(0, 100)] in H.
  inversion H as [|p l Hp Hl]; subst.
  unfold within_page in Hp; cbn in Hp. lia.
Qed.

(** C2, amended. For every layout with non-negative settings in which a
    tile fits between the left margin and the right edge
    ([margin_x + paste_w <= a4_w]) and for every [copies], the bounding
    box of every pasted tile lies within the page. *)
Theorem pasted_tiles_within_page (L : Layout) (copies : Z) :
  nonneg L ->
  margin_x L + paste_w L <= a4_w L ->
  Forall (within_page L) (a4 (compose L copies)).
Proof.
  intros HL Hx. rewrite compose_a4.
  apply places_within; try assumption; unfold nonneg in HL; lia.
Qed.

Lemma pasted_tiles_within_page_witness :
  Forall (within_page settings) (a4 (compose settings 40)).
Proof.
  apply (pasted_tiles_within_page settings 40).
  - unfold nonneg; cbn; lia.
  - cbn; lia.
Defined.

(** C3, as stated, fails: a tile wider than the page is still pasted, one
    to a row from the second row on, when the page has the height. *)
Lemma wide_tile_is_placed :
  nonneg narrow_page /\
  paste_w narrow_page > a4_w narrow_page - margin_x narrow_page /\
  placed (compose narrow_page 1) = 1.
Proof.
  split; [unfold nonneg; cbn; lia|].
  split; [cbn; lia | reflexivity].
Qed.

(** C3, amended. For every layout with non-negative settings and every
    [copies], the loop pastes nothing and [placed] ends at 0 when the tile
    is too high for the page ([paste_h > a4_h - margin_y]), or too wide
    ([paste_w > a4_w - margin_x]) on a page without room for a second row
    ([margin_y + 2 * paste_h + spacing > a4_h]). *)
Theorem oversized_tile_places_nothing (L : Layout) (copies : Z) :
  nonneg L ->
  paste_h L > a4_h L - margin_y L \/
  (paste_w L > a4_w L - margin_x L /\
   margin_y L + 2 * paste_h L + spacing L > a4_h L) ->
  placed (compose L copies) = 0 /\ a4 (compose L copies) = [].
Proof.
  intros HL Hbig.
  assert (places L (Z.to_nat copies) (margin_x L) (margin_y L) = [])
    as Hnone.
  { destruct (nonneg_steps L HL) as [_ HH].
    destruct (Z.to_nat copies) as [|n]; [reflexivity|].
    loop_cases L (margin_x L); try reflexivity; lia. }
  rewrite compose_placed, compose_a4, Hnone. split; reflexivity.
Qed.

Lemma oversized_tile_places_nothing_witness :
  placed (compose (mkLayout 384 4000 2 25 10 15 20 2480 3508) 6) = 0 /\
  a4 (compose (mkLayout 384 4000 2 25 10 15 20 2480 3508) 6) = [].
Proof.
  apply (oversized_tile_places_nothing
           (mkLayout 384 4000 2 25 10 15 20 2480 3508) 6).
  - unfold nonneg; cbn; lia.
  - left; cbn; lia.
Defined.

(** C4. For every layout with non-negative settings and every [copies],
    of any two pastes the later one is in the same row and at least
    [paste_w + horizontal_gap] to the right, or at least
    [paste_h + spacing] further down; so their bounding boxes share no
    pixel. *)
Theorem pasted_tiles_do_not_overlap (L : Layout) (copies : Z) :
  nonneg L ->
  forall (i j : nat) (p q : Z * Z),
    (i < j)%nat ->
    nth_error (a4 (compose L copies)) i = Some p ->
    nth_error (a4 (compose L copies)) j = Some q ->
    separated L p q /\ ~ overlap L p q.
Proof.
  intros HL i j p q Hij Hp Hq.
  destruct (nonneg_steps L HL) as [HW HH].
  assert (separated L p q) as Hsep.
  { rewrite compose_a4 in Hp, Hq.
    exact (ForallOrdPairs_nth _ _ (places_separated L HW HH _ _ _)
             i j p q Hij Hp Hq). }
  split; [exact Hsep|].
  apply separated_no_overlap; try assumption; unfold nonneg in HL; lia.
Qed.

Lemma pasted_tiles_do_not_overlap_witness :
  separated settings (10, 15) (10, 516) /\
  ~ overlap settings (10, 15) (10, 516).
Proof.
  apply (pasted_tiles_do_not_overlap settings 40 ltac:(unfold nonneg; cbn; lia)
           0%nat 6%nat (10, 15) (10, 516)).
  - lia.
  - reflexivity.
  - reflexivity.
Defined.

(** C5. With the settings of [process] and [copies = 6], the footprint is
    388 by 476 and the loop pastes exactly 6 tiles, all at [y = 15], at
    [x] = 10, 418, 826, 1234, 1642 and 2050. *)
Theorem six_copies_fill_one_row :
  paste_w settings = 388 /\ paste_h settings = 476 /\
  placed (compose settings 6) = 6 /\
  a4 (compose settings 6) =
  [(10, 15); (418, 15); (826, 15); (1234, 15); (1642, 15); (2050, 15)].
Proof. repeat split; reflexivity. Qed.

(** C6. The loop is reached with a tile of at least one pixel each way:
    [resize] on line 132 raises for a size of zero.  For every such layout
    with non-negative settings and for every [copies], each paste is
    followed by one at a strictly greater [y], or at the same [y] and a
    strictly greater [x]: copy [i] is never placed after copy [i + 1] in
    row-major order. *)
Theorem pastes_in_row_major_order (L : Layout) (copies : Z) :
  nonneg L ->
  1 <= passport_width L ->
  1 <= passport_height L ->
  consecutive row_major_lt (a4 (compose L copies)).
Proof.
  intros HL Hw Hh i p q Hp Hq.
  assert (0 < paste_w L + horizontal_gap L /\ 0 < paste_h L + spacing L)
    as [HW HH] by (unfold nonneg, paste_w, paste_h in *; lia).
  rewrite compose_a4 in Hp, Hq.
  pose proof (ForallOrdPairs_nth _ _
                (places_separated L ltac:(lia) ltac:(lia) _ _ _)
                i (S i) p q ltac:(lia) Hp Hq) as Hsep.
  unfold separated in Hsep. unfold row_major_lt. lia.
Qed.

Lemma pastes_in_row_major_order_witness :
  consecutive row_major_lt (a4 (compose settings 40)).
Proof.
  apply (pastes_in_row_major_order settings 40).
  - unfold nonneg; cbn; lia.
  - cbn; lia.
  - cbn; lia.
Defined.

(** C10. For every layout and every [copies < 0] the range is empty, so
    the loop body never runs: the cursor is left as it started, the page is
    empty and [placed] is 0, as for [copies = 0]. *)
Theorem negative_copies_place_nothing (L : Layout) (copies : Z) :
  copies < 0 ->
  range copies = [] /\
  compose L copies = start L /\
  compose L copies = compose L 0 /\
  a4 (compose L copies) = [] /\
  placed (compose L copies) = 0.
Proof.
  intro Hneg. unfold compose.
  rewrite (range_nonpos copies) by lia.
  repeat split; reflexivity.
Qed.

Lemma negative_copies_place_nothing_witness :
  range (-3) = [] /\
  compose settings (-3) = start settings /\
  compose settings (-3) = compose settings 0 /\
  a4 (compose settings (-3)) = [] /\
  placed (compose settings (-3)) = 0.
Proof.
  apply (negative_copies_place_nothing settings (-3)). lia.
Defined.

(** ** The tile *)

Lemma div255_exact (c : Z) : 0 <= c <= 255 -> div255 (c * 255) = c.
Proof.
  intro Hc. unfold div255. cbv zeta.
  rewrite !Z.shiftr_div_pow2 by lia.
  change (2 ^ 8) with 256.
  Z.to_euclidean_division_equations. lia.
Qed.

Lemma blend_transparent (src : Z) : blend 0 255 src = 255.
Proof.
  unfold blend.
  replace (255 * (255 - 0) + src * 0) with (255 * 255) by ring.
  reflexivity.
Qed.

Lemma blend_opaque (dst src : Z) : 0 <= src <= 255 -> blend 255 dst src = src.
Proof.
  intro Hs. unfold blend.
  replace (dst * (255 - 255) + src * 255) with (src * 255) by ring.
  now apply div255_exact.
Qed.

Lemma nth_eight_bit (p : list Z) (k : nat) :
  Forall (fun b => 0 <= b <= 255) p -> 0 <= nth k p 0 <= 255.
Proof.
  intro Hp. revert k. induction Hp as [|b p Hb Hp IH]; intro k.
  - destruct k; cbn; lia.
  - destruct k; cbn; [exact Hb | apply IH].
Qed.

(** The mask [flatten] pastes through is the alpha band. *)
Lemma mask_is_alpha (img : Image) (u v : Z) :
  mode img = "RGBA"%string \/ mode img = "LA"%string ->
  getpixel (last_image (split img)) u v = [alpha_at img u v].
Proof.
  unfold alpha_at, split. destruct img as [m s g]; cbn [mode size getpixel].
  intros [-> | ->]; reflexivity.
Qed.

Lemma flatten_alpha (P : Imaging) (img : Image) :
  mode img = "RGBA"%string \/ mode img = "LA"%string ->
  flatten P img =
  paste_mask (image_new "RGB" (size img) white) img
             (last_image (split img)).
Proof.
  unfold flatten. intros [-> | ->]; reflexivity.
Qed.

Lemma flatten_no_alpha (P : Imaging) (img : Image) :
  mode img <> "RGBA"%string -> mode img <> "LA"%string ->
  flatten P img = convert P "RGB" img.
Proof.
  unfold flatten. intros H1 H2.
  destruct (String.eqb_spec (mode img) "RGBA"); [contradiction|].
  destruct (String.eqb_spec (mode img) "LA"); [contradiction|].
  reflexivity.
Qed.

Lemma flatten_pixel (P : Imaging) (img : Image) (u v : Z) :
  mode img = "RGBA"%string \/ mode img = "LA"%string ->
  getpixel (flatten P img) u v =
  map (fun ds => blend (alpha_at img u v) (fst ds) (snd ds))
      (combine white (colour_of (mode img) (getpixel img u v))).
Proof.
  intro Hm. rewrite (flatten_alpha P img Hm).
  cbn [paste_mask getpixel image_new].
  now rewrite (mask_is_alpha img u v Hm).
Qed.

(** C7. For every decoded image, the transparency branch yields an image
    of mode "RGB" and of the same size.  In mode "RGBA" or "LA" it is the
    image pasted onto a white "RGB" background through its own last band,
    the alpha: a pixel of alpha 0 comes out white, a pixel of alpha 255
    (its bands being 8-bit values) comes out in its own colour.  In every
    other mode it is [img.convert("RGB")]. *)
Theorem flatten_gives_opaque_rgb (P : Imaging) (img : Image) :
  mode (flatten P img) = "RGB"%string /\
  size (flatten P img) = size img /\
  (mode img = "RGBA"%string \/ mode img = "LA"%string ->
   flatten P img =
     paste_mask (image_new "RGB" (size img) white) img
                (last_image (split img)) /\
   forall u v : Z,
     getpixel (last_image (split img)) u v = [alpha_at img u v] /\
     (alpha_at img u v = 0 -> getpixel (flatten P img) u v = white) /\
     (alpha_at img u v = 255 ->
      Forall (fun b => 0 <= b <= 255) (getpixel img u v) ->
      getpixel (flatten P img) u v =
      colour_of (mode img) (getpixel img u v))) /\
  (mode img <> "RGBA"%string -> mode img <> "LA"%string ->
   flatten P img = convert P "RGB" img).
Proof.
  assert (mode (flatten P img) = "RGB"%string /\
          size (flatten P img) = size img) as [Hmode Hsize].
  { unfold flatten.
    destruct ((mode img =? "RGBA")%string || (mode img =? "LA")%string);
      split; reflexivity. }
  split; [exact Hmode|]. split; [exact Hsize|]. split.
  - intro Hm. split; [now apply flatten_alpha|].
    intros u v. split; [now apply mask_is_alpha|].
    rewrite (flatten_pixel P img u v Hm).
    unfold colour_of, white. split.
    + intros ->.
      destruct (mode img =? "LA")%string; cbn [combine map fst snd];
        now rewrite !blend_transparent.
    + intros -> Hbits.
      pose proof (fun k => nth_eight_bit (getpixel img u v) k Hbits)
        as Hband.
      destruct (mode img =? "LA")%string; cbn [combine map fst snd];
        now rewrite !blend_opaque by apply Hband.
  - now apply flatten_no_alpha.
Qed.

Lemma flatten_gives_opaque_rgb_witness :
  mode (flatten grey_imaging two_pixels) = "RGB"%string /\
  getpixel (flatten grey_imaging two_pixels) 0 0 = [255; 255; 255] /\
  getpixel (flatten grey_imaging two_pixels) 1 0 = [10; 10; 200].
Proof.
  destruct (flatten_gives_opaque_rgb grey_imaging two_pixels)
    as (Hmode & _ & Halpha & _).
  destruct (Halpha (or_introl eq_refl)) as [_ Hpx].
  split; [exact Hmode|]. split.
  - exact (proj1 (proj2 (Hpx 0 0)) eq_refl).
  - apply (proj2 (proj2 (Hpx 1 0)) eq_refl).
    cbn. repeat constructor; lia.
Defined.

(** C8. For every source image and every layout, the tile made from it
    measures [passport_width + 2 * border] by
    [passport_height + 2 * border]: within the border it shows the
    flattened image resized to [passport_width] by [passport_height] with
    the Lanczos filter, and around it [border] pixels of black.  With the
    settings of [process] the tile measures 388 by 476. *)
Theorem tile_has_footprint_size (P : Imaging) (L : Layout) (img : Image) :
  size (prepare P L img) =
    (passport_width L + 2 * border L, passport_height L + 2 * border L) /\
  size (prepare P L img) = (paste_w L, paste_h L) /\
  size (prepare P settings img) = (388, 476) /\
  size (resize P (flatten P img) (passport_width L, passport_height L)
          LANCZOS) = (passport_width L, passport_height L) /\
  forall u v : Z,
    (inside_border L u v ->
     getpixel (prepare P L img) u v =
     getpixel (resize P (flatten P img)
                 (passport_width L, passport_height L) LANCZOS)
              (u - border L) (v - border L)) /\
    (~ inside_border L u v -> getpixel (prepare P L img) u v = black).
Proof.
  assert (forall K : Layout,
             size (prepare P K img) = (paste_w K, paste_h K)) as Hsize.
  { intro K. unfold prepare, resize_and_border, expand, paste_at, resize,
      paste_w, paste_h; cbn [size fst snd image_new]. f_equal; ring. }
  split; [exact (Hsize L)|]. split; [exact (Hsize L)|].
  split; [exact (Hsize settings)|]. split; [reflexivity|].
  intros u v.
  unfold inside_border, prepare, resize_and_border, expand, paste_at.
  cbn [getpixel size resize fst snd image_new].
  destruct (Z.leb_spec (border L) u), (Z.ltb_spec u (border L + passport_width L)),
    (Z.leb_spec (border L) v), (Z.ltb_spec v (border L + passport_height L));
    cbn [andb]; split; intro Hin; try reflexivity; lia.
Qed.

Lemma tile_has_footprint_size_witness :
  getpixel (prepare grey_imaging settings two_pixels) 2 2 = [128; 128; 128] /\
  getpixel (prepare grey_imaging settings two_pixels) 1 2 = [0; 0; 0].
Proof.
  destruct (tile_has_footprint_size grey_imaging settings two_pixels)
    as (_ & _ & _ & _ & Hpx).
  split.
  - apply (proj1 (Hpx 2 2)). unfold inside_border; cbn; lia.
  - apply (proj2 (Hpx 1 2)). unfold inside_border; cbn; lia.
Defined.

(** ** The answer to a failed background removal *)

Lemma removal_failed_cases (r : Response) :
  removal_failed r =
  match first_error r with
  | Some e =>
      (Dict [("error"%string,
              match lookup "code" e with
              | Some code => code
              | None => JString "unknown_error"
              end)], 410)
  | None => (Dict [("error"%string, JString "bg_removal_failed")], 500)
  end.
Proof.
  unfold removal_failed, parse_error, first_error, py_get, py_item.
  destruct (json r) as [[| b | n | s | items | fields]|]; try reflexivity.
  destruct (lookup "errors" fields) as [[| b | n | s | items | fs]|];
    cbn [truthy py_first]; try reflexivity.
  - destruct b; reflexivity.
  - destruct (n =? 0); reflexivity.
  - destruct s; reflexivity.
  - destruct items as [|[| b | n | s | items' | e] rest]; reflexivity.
  - destruct fs; reflexivity.
Qed.

(** C9, as stated, fails: when the first error of the answer has no code,
    the handler still replies 410, with the code "unknown_error". *)
Lemma uncoded_error_gets_410 :
  status_code titled_error <> 200 /\
  first_error_code titled_error = None /\
  process grey_imaging (answered titled_error) =
  (Replied (Dict [("error"%string, JString "unknown_error")], 410),
   [RemoveBg]).
Proof.
  split; [cbn; lia|]. split; reflexivity.
Qed.

(** C9, amended. When the background-removal service answers with a
    status other than 200, the handler replies at once, having made no
    call but that one.  If the answer is a JSON object whose "errors" is a
    list starting with an object, the reply is 410 with that object's
    "code", or with "unknown_error" when it has none; in every other case
    it is 500 with "bg_removal_failed". *)
Theorem failed_removal_short_circuits
    (P : Imaging) (E : Env) (input_image : bytes) (copies : Z) :
  files_image E = Some input_image ->
  match form_copies E with
  | None => Some 6
  | Some s => py_int E s
  end = Some copies ->
  status_code (remove_bg E input_image) <> 200 ->
  process P E =
  (Replied
     match first_error (remove_bg E input_image) with
     | Some e =>
         (Dict [("error"%string,
                 match lookup "code" e with
                 | Some code => code
                 | None => JString "unknown_error"
                 end)], 410)
     | None => (Dict [("error"%string, JString "bg_removal_failed")], 500)
     end,
   [RemoveBg]).
Proof.
  intros Hfile Hcopies Hstatus. unfold process.
  rewrite Hfile, Hcopies.
  destruct (Z.eqb_spec (status_code (remove_bg E input_image)) 200);
    [contradiction|].
  cbn [negb]. now rewrite removal_failed_cases.
Qed.

Lemma failed_removal_short_circuits_witness :
  process grey_imaging (answered coded_error) =
  (Replied (Dict [("error"%string, JString "insufficient_credits")], 410),
   [RemoveBg]).
Proof.
  apply (failed_removal_short_circuits grey_imaging (answered coded_error)
           [] 6).
  - reflexivity.
  - reflexivity.
  - cbn; lia.
Defined.

(** ** More on the layout loop *)

Lemma places_firstn (L : Layout) :
  forall (n m : nat) (cx cy : Z),
    (n <= m)%nat -> places L n cx cy = firstn n (places L m cx cy).
Proof.
  induction n as [|n IH]; intros m cx cy Hnm.
  - reflexivity.
  - destruct m as [|m]; [lia|].
    cbn [places].
    destruct (cx + paste_w L >? a4_w L); cbv zeta;
      match goal with
      | |- context [?u + paste_h L >? a4_h L] =>
          destruct (u + paste_h L >? a4_h L)
      end; try reflexivity;
      cbn [firstn]; f_equal; apply IH; lia.
Qed.

(** X1. The corners pasted for [n] copies are the first [n] of those
    pasted for any larger request: where a copy goes does not depend on
    how many are asked for. *)
Theorem fewer_copies_give_a_prefix (L : Layout) (n m : Z) :
  n <= m ->
  a4 (compose L n) = firstn (Z.to_nat n) (a4 (compose L m)).
Proof.
  intro Hnm. rewrite !compose_a4. apply places_firstn. lia.
Qed.

Lemma fewer_copies_give_a_prefix_witness :
  a4 (compose settings 6) = firstn (Z.to_nat 6) (a4 (compose settings 40)).
Proof.
  apply (fewer_copies_give_a_prefix settings 6 40). lia.
Defined.

Lemma places_bottom (L : Layout) :
  forall (n : nat) (cx cy : Z),
    Forall (fun p => snd p + paste_h L <= a4_h L) (places L n cx cy).
Proof.
  induction n as [|n IH]; intros cx cy.
  - constructor.
  - loop_cases L cx; constructor; cbn [snd]; try lia; apply IH.
Qed.

(** X2. Whatever the layout and the request, no tile is pasted with its
    bottom edge below the page. *)
Theorem pastes_above_bottom_edge (L : Layout) (copies : Z) :
  Forall (fun p => snd p + paste_h L <= a4_h L) (a4 (compose L copies)).
Proof. rewrite compose_a4. apply places_bottom. Qed.

Lemma places_length_le (L : Layout) :
  forall (n : nat) (cx cy : Z), (length (places L n cx cy) <= n)%nat.
Proof.
  induction n as [|n IH]; intros cx cy.
  - cbn; lia.
  - loop_cases L cx; cbn [length]; try lia;
      match goal with
      | |- (S (length (places L n ?u ?v)) <= S n)%nat =>
          pose proof (IH u v); lia
      end.
Qed.

(** X3. Whatever the layout, the counter [placed] is the number of pastes
    on the page, and it is at least 0 and at most the number of copies
    asked for. *)
Theorem placed_counts_the_pastes (L : Layout) (copies : Z) :
  placed (compose L copies) = Z.of_nat (length (a4 (compose L copies))) /\
  0 <= placed (compose L copies) <= Z.max 0 copies.
Proof.
  split; [apply placed_counts_pastes|].
  rewrite compose_placed.
  pose proof (places_length_le L (Z.to_nat copies) (margin_x L) (margin_y L)).
  lia.
Qed.

Lemma grid_cell (L : Layout) (i j : Z) :
  0 <= j < per_row L ->
  grid L (i * per_row L + j) =
  (margin_x L + j * (paste_w L + horizontal_gap L),
   margin_y L + i * (paste_h L + spacing L)).
Proof.
  intro Hj. unfold grid.
  assert ((i * per_row L + j) / per_row L = i) as ->.
  { symmetry. apply (Z.div_unique_pos _ _ i j); [lia | ring]. }
  assert ((i * per_row L + j) mod per_row L = j) as ->.
  { symmetry. apply (Z.mod_unique_pos _ _ i j); [lia | ring]. }
  reflexivity.
Qed.

(** Entered in row [i] after [j] tiles of that row, the loop pastes on
    the cells from cell [i * per_row + j] on, in order. *)
Lemma places_on_grid (L : Layout) :
  0 < paste_w L + horizontal_gap L ->
  0 < paste_h L + spacing L ->
  fits L ->
  forall (n : nat) (i j : Z) (k : nat) (p : Z * Z),
    0 <= i < rows L -> 0 <= j <= per_row L ->
    nth_error (places L n
                 (margin_x L + j * (paste_w L + horizontal_gap L))
                 (margin_y L + i * (paste_h L + spacing L))) k = Some p ->
    p = grid L (i * per_row L + j + Z.of_nat k).
Proof.
  intros HW HH [Hx Hy].
  pose proof (per_row_pos L HW Hx) as Hc.
  induction n as [|n IH]; intros i j k p Hi Hj Hk.
  - destruct k; discriminate.
  - pose proof (column_full L j HW) as Hcol.
    pose proof (row_full L (i + 1) HH) as Hrow'.
    replace (margin_y L + (i + 1) * (paste_h L + spacing L))
      with (margin_y L + i * (paste_h L + spacing L)
            + (paste_h L + spacing L)) in Hrow' by ring.
    revert Hk.
    loop_cases L (margin_x L + j * (paste_w L + horizontal_gap L));
      intro Hk; try (destruct k; discriminate).
    + (* the row is full: the paste opens row [i + 1] *)
      assert (j = per_row L) as -> by lia.
      destruct k as [|k]; cbn [nth_error] in Hk.
      * injection Hk as <-.
        replace (i * per_row L + per_row L + Z.of_nat 0)
          with ((i + 1) * per_row L + 0) by (cbn; ring).
        rewrite grid_cell by lia. f_equal; ring.
      * replace (margin_x L + (paste_w L + horizontal_gap L))
          with (margin_x L + 1 * (paste_w L + horizontal_gap L)) in Hk by ring.
        replace (margin_y L + i * (paste_h L + spacing L)
                 + (paste_h L + spacing L))
          with (margin_y L + (i + 1) * (paste_h L + spacing L)) in Hk by ring.
        rewrite (IH (i + 1) 1 k p ltac:(lia) ltac:(lia) Hk).
        f_equal. rewrite Nat2Z.inj_succ. ring.
    + (* room in the row *)
      destruct k as [|k]; cbn [nth_error] in Hk.
      * injection Hk as <-.
        replace (i * per_row L + j + Z.of_nat 0)
          with (i * per_row L + j) by (cbn; ring).
        rewrite grid_cell by lia. reflexivity.
      * replace (margin_x L + j * (paste_w L + horizontal_gap L)
                 + (paste_w L + horizontal_gap L))
          with (margin_x L + (j + 1) * (paste_w L + horizontal_gap L))
          in Hk by ring.
        rewrite (IH i (j + 1) k p ltac:(lia) ltac:(lia) Hk).
        f_equal. rewrite Nat2Z.inj_succ. ring.
Qed.

Lemma nth_paste_on_grid (L : Layout) (copies : Z) (k : nat) :
  0 < paste_w L + horizontal_gap L ->
  0 < paste_h L + spacing L ->
  fits L ->
  Z.of_nat k < Z.min (Z.max 0 copies) (per_row L * rows L) ->
  nth_error (a4 (compose L copies)) k = Some (grid L (Z.of_nat k)).
Proof.
  intros HW HH Hfit Hk.
  pose proof (placed_finite L copies HW HH Hfit) as Hplaced.
  rewrite placed_counts_pastes in Hplaced.
  destruct (nth_error (a4 (compose L copies)) k) as [p|] eqn:Hnth.
  - f_equal. rewrite compose_a4 in Hnth.
    pose proof (rows_pos L HH (proj2 Hfit)) as Hr.
    pose proof (per_row_pos L HW (proj1 Hfit)) as Hc.
    pose proof (places_on_grid L HW HH Hfit (Z.to_nat copies) 0 0 k p
                  ltac:(lia) ltac:(lia)) as Hgrid.
    replace (margin_x L + 0 * (paste_w L + horizontal_gap L))
      with (margin_x L) in Hgrid by ring.
    replace (margin_y L + 0 * (paste_h L + spacing L))
      with (margin_y L) in Hgrid by ring.
    rewrite (Hgrid Hnth). f_equal; ring.
  - apply nth_error_None in Hnth. lia.
Qed.

(** X4. When a tile fits and the cursor moves at each step, copy [k]
    (counting from 0) of those placed is pasted at column [k mod per_row]
    and row [k / per_row] of a regular grid: at
    [x = margin_x + (k mod per_row) * (paste_w + horizontal_gap)] and
    [y = margin_y + (k / per_row) * (paste_h + spacing)]. *)
Theorem kth_paste_on_grid (L : Layout) (copies : Z) (k : nat) :
  0 < paste_w L + horizontal_gap L ->
  0 < paste_h L + spacing L ->
  fits L ->
  Z.of_nat k < Z.min (Z.max 0 copies) (per_row L * rows L) ->
  nth_error (a4 (compose L copies)) k =
  Some (margin_x L
        + (Z.of_nat k mod per_row L) * (paste_w L + horizontal_gap L),
        margin_y L
        + (Z.of_nat k / per_row L) * (paste_h L + spacing L)).
Proof. exact (nth_paste_on_grid L copies k). Qed.

Lemma kth_paste_on_grid_witness :
  nth_error (a4 (compose settings 40)) 7 = Some (418, 516).
Proof.
  apply (kth_paste_on_grid settings 40 7).
  - cbn; lia.
  - cbn; lia.
  - unfold fits; cbn; lia.
  - vm_compute; reflexivity.
Defined.

Lemma places_too_wide (L : Layout) :
  0 <= paste_w L + horizontal_gap L ->
  a4_w L < margin_x L + paste_w L ->
  forall (n : nat) (cx cy : Z) (k : nat) (p : Z * Z),
    a4_w L < cx + paste_w L ->
    nth_error (places L n cx cy) k = Some p ->
    p = (margin_x L, cy + (Z.of_nat k + 1) * (paste_h L + spacing L)).
Proof.
  intros HW Hwide. induction n as [|n IH]; intros cx cy k p Hcx Hk.
  - destruct k; discriminate.
  - revert Hk. loop_cases L cx; intro Hk; try lia;
      try (destruct k; discriminate).
    destruct k as [|k]; cbn [nth_error] in Hk.
    + injection Hk as <-. f_equal. change (Z.of_nat 0) with 0. ring.
    + apply IH in Hk; [|lia]. rewrite Hk.
      f_equal. rewrite Nat2Z.inj_succ. ring.
Qed.

(** X5. A tile too wide for the page ([margin_x + paste_w > a4_w]) is
    never pasted in the first row: copy [k] of those placed goes to the
    left margin of row [k + 1], one tile to a row. *)
Theorem too_wide_tile_takes_one_per_row
    (L : Layout) (copies : Z) (k : nat) (p : Z * Z) :
  nonneg L ->
  a4_w L < margin_x L + paste_w L ->
  nth_error (a4 (compose L copies)) k = Some p ->
  p = (margin_x L,
       margin_y L + (Z.of_nat k + 1) * (paste_h L + spacing L)).
Proof.
  intros HL Hwide Hk. rewrite compose_a4 in Hk.
  destruct (nonneg_steps L HL) as [HW _].
  exact (places_too_wide L HW Hwide _ _ _ k p Hwide Hk).
Qed.

Lemma too_wide_tile_takes_one_per_row_witness :
  (0, 300) = (margin_x narrow_page,
              margin_y narrow_page
              + (Z.of_nat 2 + 1) * (paste_h narrow_page + spacing narrow_page)).
Proof.
  apply (too_wide_tile_takes_one_per_row narrow_page 5 2 (0, 300)).
  - unfold nonneg; cbn; lia.
  - cbn; lia.
  - reflexivity.
Defined.

(** ** The rendered page *)

Lemma paste_at_pixel (target img : Image) (p : Z * Z) (u v : Z) :
  getpixel (paste_at target img p) u v =
  if covers img p u v then getpixel img (u - fst p) (v - snd p)
  else getpixel target u v.
Proof. destruct p as [left top]. reflexivity. Qed.

Lemma paste_at_shape (target img : Image) (p : Z * Z) :
  size (paste_at target img p) = size target /\
  mode (paste_at target img p) = mode target.
Proof. destruct p as [left top]. split; reflexivity. Qed.

Lemma pastes_keep_shape (tile : Image) (corners : list (Z * Z)) :
  forall sheet : Image,
    size (fold_left (fun s c => paste_at s tile c) corners sheet)
      = size sheet /\
    mode (fold_left (fun s c => paste_at s tile c) corners sheet)
      = mode sheet.
Proof.
  induction corners as [|c rest IH]; intro sheet; cbn [fold_left].
  - split; reflexivity.
  - destruct (IH (paste_at sheet tile c)) as [Hs Hm].
    destruct (paste_at_shape sheet tile c) as [Hs' Hm'].
    split; congruence.
Qed.

Lemma pastes_leave_uncovered (tile : Image) (u v : Z)
    (corners : list (Z * Z)) :
  forall sheet : Image,
    Forall (fun c => covers tile c u v = false) corners ->
    getpixel (fold_left (fun s c => paste_at s tile c) corners sheet) u v
    = getpixel sheet u v.
Proof.
  induction corners as [|c rest IH]; intros sheet Hout; cbn [fold_left].
  - reflexivity.
  - inversion Hout as [|c' rest' Hc Hrest]; subst.
    rewrite (IH _ Hrest), paste_at_pixel, Hc. reflexivity.
Qed.

Lemma covers_in_box (L : Layout) (tile : Image) (p : Z * Z) (u v : Z) :
  size tile = (paste_w L, paste_h L) ->
  (covers tile p u v = true <-> in_box L p u v).
Proof.
  intro Hsize. unfold covers, in_box. rewrite Hsize; cbn [fst snd].
  rewrite !andb_true_iff, !Z.leb_le, !Z.ltb_lt. lia.
Qed.

Lemma pastes_show_tile (L : Layout) (tile : Image) (u v : Z) :
  size tile = (paste_w L, paste_h L) ->
  forall (corners : list (Z * Z)) (sheet : Image) (k : nat) (p : Z * Z),
    ForallOrdPairs (fun a b => ~ overlap L a b) corners ->
    nth_error corners k = Some p ->
    in_box L p u v ->
    getpixel (fold_left (fun s c => paste_at s tile c) corners sheet) u v
    = getpixel tile (u - fst p) (v - snd p).
Proof.
  intro Hsize.
  induction corners as [|c rest IH]; intros sheet k p Hpairs Hk Hin.
  - destruct k; discriminate.
  - inversion Hpairs as [|c' rest' Hc Hrest]; subst.
    cbn [fold_left]. destruct k as [|k]; cbn [nth_error] in Hk.
    + injection Hk as ->.
      rewrite pastes_leave_uncovered.
      * rewrite paste_at_pixel.
        now rewrite (proj2 (covers_in_box L tile p u v Hsize) Hin).
      * eapply Forall_impl; [|exact Hc]. cbn beta. intros q Hno.
        destruct (covers tile q u v) eqn:Hq; [|reflexivity].
        exfalso. apply Hno. exists u, v.
        apply (covers_in_box L tile q u v Hsize) in Hq.
        unfold in_box in Hin, Hq. lia.
    + exact (IH _ k p Hrest Hk Hin).
Qed.

Lemma ForallOrdPairs_impl {A : Type} (R S : A -> A -> Prop) (l : list A) :
  (forall a b, R a b -> S a b) ->
  ForallOrdPairs R l -> ForallOrdPairs S l.
Proof.
  intros HRS. induction 1 as [|a l Ha Hl IH]; constructor.
  - eapply Forall_impl; [|exact Ha]. apply HRS.
  - exact IH.
Qed.

Lemma places_no_overlap (L : Layout) (n : nat) (cx cy : Z) :
  nonneg L ->
  ForallOrdPairs (fun a b => ~ overlap L a b) (places L n cx cy).
Proof.
  intro HL. destruct (nonneg_steps L HL) as [HW HH].
  apply (ForallOrdPairs_impl (separated L)).
  - intros a b. apply separated_no_overlap; unfold nonneg in HL; lia.
  - now apply places_separated.
Qed.

Lemma prepare_size (P : Imaging) (L : Layout) (img : Image) :
  size (prepare P L img) = (paste_w L, paste_h L).
Proof.
  unfold prepare, resize_and_border, expand, paste_at, resize, paste_w,
    paste_h; cbn [size fst snd image_new]. f_equal; ring.
Qed.

(** X6. Pasting never changes the sheet itself: whatever is pasted, the
    page keeps its size [a4_w] by [a4_h] and its mode "RGB", and a pixel
    that no pasted tile covers stays white. *)
Theorem uncovered_page_stays_white
    (L : Layout) (tile : Image) (corners : list (Z * Z)) :
  size (render L tile corners) = (a4_w L, a4_h L) /\
  mode (render L tile corners) = "RGB"%string /\
  forall u v : Z,
    Forall (fun c => covers tile c u v = false) corners ->
    getpixel (render L tile corners) u v = white.
Proof.
  unfold render.
  destruct (pastes_keep_shape tile corners
              (image_new "RGB" (a4_w L, a4_h L) white)) as [Hs Hm].
  split; [exact Hs|]. split; [exact Hm|].
  intros u v Hout. now rewrite pastes_leave_uncovered.
Qed.

Lemma uncovered_page_stays_white_witness :
  getpixel (render settings (prepare grey_imaging settings two_pixels)
              (a4 (compose settings 6))) 5 5 = white.
Proof.
  apply (proj2 (proj2 (uncovered_page_stays_white settings
                         (prepare grey_imaging settings two_pixels)
                         (a4 (compose settings 6))))).
  repeat constructor.
Defined.

(** X7. With non-negative settings, room for a tile between the left
    margin and the right edge ([margin_x + paste_w <= a4_w]) and a tile of
    the footprint's size, every copy the loop pastes is on the page in
    full: each pixel of its box is a pixel of the page, and shows the
    tile, so that no later paste covers any of it. *)
Theorem every_pasted_copy_is_visible
    (L : Layout) (tile : Image) (copies : Z) (k : nat) (p : Z * Z)
    (u v : Z) :
  nonneg L ->
  margin_x L + paste_w L <= a4_w L ->
  size tile = (paste_w L, paste_h L) ->
  nth_error (a4 (compose L copies)) k = Some p ->
  in_box L p u v ->
  (0 <= u < fst (size (render L tile (a4 (compose L copies)))) /\
   0 <= v < snd (size (render L tile (a4 (compose L copies))))) /\
  getpixel (render L tile (a4 (compose L copies))) u v =
  getpixel tile (u - fst p) (v - snd p).
Proof.
  intros HL Hx Hsize Hk Hin. split.
  - unfold render.
    destruct (pastes_keep_shape tile (a4 (compose L copies))
                (image_new "RGB" (a4_w L, a4_h L) white)) as [-> _].
    cbn [size image_new fst snd].
    assert (within_page L p) as Hp.
    { assert (Forall (within_page L) (a4 (compose L copies))) as Hall
          by (rewrite compose_a4; apply places_within;
              try assumption; unfold nonneg in HL; lia).
      rewrite Forall_forall in Hall. apply Hall.
      eapply nth_error_In; eassumption. }
    unfold within_page in Hp. unfold in_box in Hin. lia.
  - unfold render.
    apply (pastes_show_tile L tile u v Hsize _ _ k p); try assumption.
    rewrite compose_a4. now apply places_no_overlap.
Qed.

Lemma every_pasted_copy_is_visible_witness :
  (0 <= 420 < fst (size (render settings
                           (prepare grey_imaging settings two_pixels)
                           (a4 (compose settings 6)))) /\
   0 <= 17 < snd (size (render settings
                          (prepare grey_imaging settings two_pixels)
                          (a4 (compose settings 6))))) /\
  getpixel (render settings (prepare grey_imaging settings two_pixels)
              (a4 (compose settings 6))) 420 17 =
  getpixel (prepare grey_imaging settings two_pixels)
           (420 - fst (418, 15)) (17 - snd (418, 15)).
Proof.
  apply (every_pasted_copy_is_visible settings
           (prepare grey_imaging settings two_pixels) 6 1 (418, 15) 420 17).
  - unfold nonneg; cbn; lia.
  - cbn; lia.
  - apply prepare_size.
  - reflexivity.
  - unfold in_box; cbn; lia.
Defined.

(** X8. The sheet [process] builds, for every image and every [copies]:
    it carries [min(max(0, copies), 42)] tiles, and tile [k] of them shows
    the prepared image, pixel for pixel, with its corner at
    [(10 + 408 * (k mod 6), 15 + 501 * (k / 6))]: six to a row, seven
    rows. *)
Theorem sheet_of_process
    (P : Imaging) (img : Image) (copies : Z) (k : nat) (du dv : Z) :
  placed (compose settings copies) = Z.min (Z.max 0 copies) 42 /\
  (Z.of_nat k < Z.min (Z.max 0 copies) 42 ->
   0 <= du < 388 -> 0 <= dv < 476 ->
   getpixel (render settings (prepare P settings img)
               (a4 (compose settings copies)))
            (10 + 408 * (Z.of_nat k mod 6) + du)
            (15 + 501 * (Z.of_nat k / 6) + dv) =
   getpixel (prepare P settings img) du dv).
Proof.
  assert (0 < paste_w settings + horizontal_gap settings) as HW
      by (cbn; lia).
  assert (0 < paste_h settings + spacing settings) as HH by (cbn; lia).
  assert (fits settings) as Hfit by (unfold fits; cbn; lia).
  assert (nonneg settings) as HL by (unfold nonneg; cbn; lia).
  split; [exact (placed_finite settings copies HW HH Hfit)|].
  intros Hk Hdu Hdv.
  pose proof (nth_paste_on_grid settings copies k HW HH Hfit Hk) as Hnth.
  assert (ForallOrdPairs (fun a b => ~ overlap settings a b)
            (a4 (compose settings copies))) as Hpairs
      by (rewrite compose_a4; now apply places_no_overlap).
  unfold render.
  rewrite (pastes_show_tile settings (prepare P settings img) _ _
             (prepare_size P settings img) _ _ k _ Hpairs Hnth).
  - unfold grid. change (per_row settings) with 6. cbn [fst snd].
    f_equal;
      [change (margin_x settings) with 10;
       change (paste_w settings + horizontal_gap settings) with 408
      |change (margin_y settings) with 15;
       change (paste_h settings + spacing settings) with 501]; ring.
  - unfold in_box, grid. change (per_row settings) with 6. cbn [fst snd].
    change (margin_x settings) with 10.
    change (margin_y settings) with 15.
    change (paste_w settings + horizontal_gap settings) with 408.
    change (paste_h settings + spacing settings) with 501.
    change (paste_w settings) with 388.
    change (paste_h settings) with 476.
    lia.
Qed.

Lemma sheet_of_process_witness :
  getpixel (render settings (prepare grey_imaging settings two_pixels)
              (a4 (compose settings 40)))
           (10 + 408 * (Z.of_nat 7 mod 6) + 2)
           (15 + 501 * (Z.of_nat 7 / 6) + 2) =
  getpixel (prepare grey_imaging settings two_pixels) 2 2.
Proof.
  apply (proj2 (sheet_of_process grey_imaging two_pixels 40 7 2 2)).
  - vm_compute; reflexivity.
  - lia.
  - lia.
Defined.

(** ** The paths through the handler *)

Lemma removal_failed_reply (r : Response) :
  exists code : Json,
    (removal_failed r = (Dict [("error"%string, code)], 410) /\
     first_error r <> None) \/
    (removal_failed r = (Dict [("error"%string, code)], 500) /\
     code = JString "bg_removal_failed" /\ first_error r = None).
Proof.
  rewrite removal_failed_cases.
  destruct (first_error r) as [e|].
  - eexists. left. split; [reflexivity | discriminate].
  - eexists. right. repeat split; reflexivity.
Qed.

Ltac handler_paths P E :=
  unfold process; cbv zeta;
  change (match form_copies E with
          | Some s => py_int E s
          | None => Some 6
          end) with (copies_of E);
  let inp := fresh "inp" in
  let cps := fresh "cps" in
  let im := fresh "im" in
  let im' := fresh "im'" in
  destruct (files_image E) as [inp|] eqn:Hfile;
  [destruct (copies_of E) as [cps|] eqn:Hcopies;
   [destruct (Z.eqb_spec (status_code (remove_bg E inp)) 200)
      as [Hstatus|Hstatus]; cbn [negb];
    [destruct (image_open P (content (remove_bg E inp)))
       as [im|] eqn:Himg;
     [destruct (secure_url
                  (cloudinary_upload E
                     (image_save P "PNG" (flatten P im))))
        as [[|c url]|] eqn:Hurl;
      [| destruct (download E
                     (enhanced_url_of E
                        (cloudinary_upload E
                           (image_save P "PNG" (flatten P im)))))
           as [data|] eqn:Hdata;
         [destruct (image_open P data) as [im'|] eqn:Himg'|]
       |]
     |]
    |]
   |]
  |].

(** X10. A reply of the handler has status 200, 400, 410 or 500; it has
    status 200 exactly when its body is the attachment
    "passport-sheet.pdf", and exactly when all five calls were made. *)
Theorem reply_statuses (P : Imaging) (E : Env) (body : Body) (st : Z) :
  fst (process P E) = Replied (body, st) ->
  (st = 200 \/ st = 400 \/ st = 410 \/ st = 500) /\
  (st = 200 <-> exists data, body = Pdf "passport-sheet.pdf" data) /\
  (st = 200 <-> snd (process P E) = all_calls).
Proof.
  handler_paths P E; cbn [fst snd app]; intro Hreply;
    try discriminate;
    try (injection Hreply as <- <-;
         repeat split; try lia; try discriminate;
         try (intros [data Hdata]; discriminate);
         try (intros _; eexists; reflexivity);
         try reflexivity; fail).
  match goal with
  | H : context [removal_failed ?r] |- _ =>
      destruct (removal_failed_reply r) as [code [[Hr _]|[Hr _]]]
  end;
    rewrite Hr in Hreply; injection Hreply as <- <-;
    repeat split; try lia; try discriminate;
    intros [data Hdata]; discriminate.
Qed.

Lemma reply_statuses_witness :
  (410 = 200 \/ 410 = 400 \/ 410 = 410 \/ 410 = 500) /\
  (410 = 200 <->
   exists data,
     Dict [("error"%string, JString "insufficient_credits")] =
     Pdf "passport-sheet.pdf" data) /\
  (410 = 200 <->
   snd (process grey_imaging (answered coded_error)) = all_calls).
Proof.
  apply (reply_statuses grey_imaging (answered coded_error)).
  reflexivity.
Defined.

(** X11. When the upload comes back without a URL, or with an empty one,
    the handler replies 500 "Cloudinary upload failed" after the removal
    and the upload alone: nothing is enhanced, downloaded or exported. *)
Theorem upload_without_url_fails
    (P : Imaging) (E : Env) (input_image : bytes) (copies : Z)
    (img : Image) :
  files_image E = Some input_image ->
  copies_of E = Some copies ->
  status_code (remove_bg E input_image) = 200 ->
  image_open P (content (remove_bg E input_image)) = Some img ->
  has_url (cloudinary_upload E (image_save P "PNG" (flatten P img)))
    = false ->
  process P E =
  (Replied (Text "Cloudinary upload failed", 500),
   [RemoveBg; CloudinaryUpload]).
Proof.
  intros Hfile Hcopies Hstatus Himg Hno.
  unfold has_url in Hno. unfold process; cbv zeta.
  change (match form_copies E with
          | Some s => py_int E s
          | None => Some 6
          end) with (copies_of E).
  rewrite Hfile, Hcopies, Hstatus, Z.eqb_refl; cbn [negb].
  rewrite Himg.
  destruct (secure_url
              (cloudinary_upload E (image_save P "PNG" (flatten P img))))
    as [[|c url]|]; try discriminate; reflexivity.
Qed.

Lemma upload_without_url_fails_witness :
  process decoding (served (Some 8) (mkUpload (Some EmptyString) None)) =
  (Replied (Text "Cloudinary upload failed", 500),
   [RemoveBg; CloudinaryUpload]).
Proof.
  apply (upload_without_url_fails decoding
           (served (Some 8) (mkUpload (Some EmptyString) None))
           [] 8 two_pixels); reflexivity.
Defined.

(** X12. The handler makes no call at all exactly when the request has
    no image or its [copies] field is not an integer; without an image it
    replies 400 "No image uploaded", and with an image and a bad [copies]
    it ends in an exception, without a reply. *)
Theorem no_call_without_image_or_copies (P : Imaging) (E : Env) :
  (snd (process P E) = [] <->
   files_image E = None \/ copies_of E = None) /\
  (files_image E = None ->
   process P E = (Replied (Text "No image uploaded", 400), [])) /\
  (files_image E <> None -> copies_of E = None ->
   process P E = (Uncaught, [])).
Proof.
  handler_paths P E; cbn [snd app];
    (split; [split; [try discriminate; auto | intros [H|H]; try discriminate; reflexivity]
            |split; [intro H; try discriminate; reflexivity
                    |intros H1 H2; try discriminate; try congruence;
                     reflexivity]]).
Qed.

Lemma no_call_without_image_or_copies_witness :
  process decoding (served None (mkUpload None None)) = (Uncaught, []).
Proof.
  apply (proj2 (proj2 (no_call_without_image_or_copies decoding
                         (served None (mkUpload None None))))).
  - discriminate.
  - reflexivity.
Defined.

(** X13. A request for which every step comes through is answered 200
    with the attachment "passport-sheet.pdf", after all five calls: the
    image is there, [copies] is an integer, the removal answers 200 with an
    image that decodes, the upload answers with a URL and a public id, and
    the download of the enhanced image returns data that decodes.  The PDF
    is that of the sheet on which the tile made from the enhanced image is
    pasted at the corners the loop gives for [copies], 6 when the form has
    no [copies] field. *)
Theorem complete_request_returns_the_sheet
    (P : Imaging) (E : Env) (input_image : bytes) (copies : Z)
    (img img' : Image) (id : string) (enhanced_img_data : bytes) :
  files_image E = Some input_image ->
  copies_of E = Some copies ->
  status_code (remove_bg E input_image) = 200 ->
  image_open P (content (remove_bg E input_image)) = Some img ->
  has_url (cloudinary_upload E (image_save P "PNG" (flatten P img)))
    = true ->
  public_id (cloudinary_upload E (image_save P "PNG" (flatten P img)))
    = Some id ->
  http_get E (cloudinary_url E id) = Some enhanced_img_data ->
  image_open P enhanced_img_data = Some img' ->
  (form_copies E = None -> copies = 6) /\
  process P E =
  (Replied (Pdf "passport-sheet.pdf"
              (image_save P "PDF"
                 (render settings (prepare P settings img')
                    (a4 (compose settings copies)))), 200),
   all_calls).
Proof.
  intros Hfile' Hcopies' Hstatus' Himg0 Hyes Hid Hget Himg1. split.
  - intro Hnone. unfold copies_of in Hcopies'. rewrite Hnone in Hcopies'.
    congruence.
  - unfold has_url in Hyes. unfold process; cbv zeta.
    change (match form_copies E with
            | Some s => py_int E s
            | None => Some 6
            end) with (copies_of E).
    rewrite Hfile', Hcopies', Hstatus', Z.eqb_refl; cbn [negb].
    rewrite Himg0.
    destruct (secure_url
                (cloudinary_upload E (image_save P "PNG" (flatten P img))))
      as [[|c url]|]; try discriminate.
    unfold enhanced_url_of, download. rewrite Hid, Hget, Himg1.
    reflexivity.
Qed.

Lemma complete_request_returns_the_sheet_witness :
  fst (process decoding
         (served (Some 8)
            (mkUpload (Some "https://res/x.png"%string) (Some "x"%string))))
  = Replied (Pdf "passport-sheet.pdf" [], 200).
Proof.
  pose proof (complete_request_returns_the_sheet decoding
                (served (Some 8)
                   (mkUpload (Some "https://res/x.png"%string)
                      (Some "x"%string)))
                [] 8 two_pixels two_pixels "x"%string []
                eq_refl eq_refl eq_refl eq_refl eq_refl eq_refl eq_refl
                eq_refl) as [_ H].
  rewrite H. reflexivity.
Defined.

(** An upload that answers with a URL and no public id gets no reply: the
    URL of the enhanced image is [None], the download raises, and the
    request ends after three calls. *)
Lemma upload_without_public_id_raises :
  process decoding
    (served (Some 8) (mkUpload (Some "https://res/x.png"%string) None))
  = (Uncaught, [RemoveBg; CloudinaryUpload; CloudinaryUrl]).
Proof. reflexivity. Qed.

(** ** Bands after flattening *)

Lemma div255_bounds (lo a : Z) :
  0 <= lo <= 255 -> lo * 255 <= a <= 255 * 255 ->
  lo <= div255 a <= 255.
Proof.
  intros Hlo Ha. unfold div255. cbv zeta.
  rewrite !Z.shiftr_div_pow2 by lia.
  change (2 ^ 8) with 256.
  Z.to_euclidean_division_equations. lia.
Qed.

Lemma blend_on_white (a s : Z) :
  0 <= a <= 255 -> 0 <= s <= 255 -> s <= blend a 255 s <= 255.
Proof.
  intros Ha Hs. unfold blend. apply div255_bounds; [lia | nia].
Qed.

(** X14. In mode "RGBA" or "LA", a pixel of 8-bit bands comes out of the
    transparency branch with exactly three bands, each an 8-bit value and
    none darker than the pixel's own colour: pasting onto white only
    lightens. *)
Theorem flatten_only_lightens (P : Imaging) (img : Image) (u v : Z) :
  mode img = "RGBA"%string \/ mode img = "LA"%string ->
  Forall (fun b => 0 <= b <= 255) (getpixel img u v) ->
  length (getpixel (flatten P img) u v) = 3%nat /\
  Forall2 (fun own out => own <= out <= 255)
          (colour_of (mode img) (getpixel img u v))
          (getpixel (flatten P img) u v).
Proof.
  intros Hm Hbits. rewrite (flatten_pixel P img u v Hm).
  pose proof (fun k => nth_eight_bit (getpixel img u v) k Hbits) as Hband.
  assert (0 <= alpha_at img u v <= 255) as Ha by apply Hband.
  unfold colour_of, white.
  destruct (mode img =? "LA")%string; cbn [combine map fst snd length];
    (split; [reflexivity|]);
    repeat constructor; apply blend_on_white; try exact Ha; apply Hband.
Qed.

Lemma flatten_only_lightens_witness :
  length (getpixel (flatten grey_imaging two_pixels) 0 0) = 3%nat /\
  Forall2 (fun own out => own <= out <= 255)
          (colour_of (mode two_pixels) (getpixel two_pixels 0 0))
          (getpixel (flatten grey_imaging two_pixels) 0 0).
Proof.
  apply (flatten_only_lightens grey_imaging two_pixels 0 0).
  - left; reflexivity.
  - cbn. repeat constructor; lia.
Defined.
